(** * ePub3 identifiers: a shallow embedding of [ePub3/utilities/iri.h]

    The class [IRI] stores a URN as a vector of components and a URL behind
    a heap pointer to a [GURL].  The embedding keeps the three data members
    of the class, makes the owning pointer an [option] and gives every
    member function an explicit outcome: a returned value, a thrown
    [std::invalid_argument], or no defined behaviour at all (a null pointer
    dereference or an unchecked [operator[]] past the end of the vector). *)

From Stdlib Require Import Bool Arith ZArith Lia List Ascii String.
Import ListNotations.

Local Open Scope string_scope.

Set Implicit Arguments.

(** ** Outcomes of a member function *)

Inductive exception : Type :=
| invalid_argument (what : string).

Inductive outcome (A : Type) : Type :=
| Returns (a : A)
| Throws (e : exception)
| Undefined.

Arguments Returns {A} a.
Arguments Throws {A} e.
Arguments Undefined {A}.

Definition bind {A B : Type} (m : outcome A) (k : A -> outcome B) : outcome B :=
  match m with
  | Returns a => k a
  | Throws e => Throws e
  | Undefined => Undefined
  end.

Definition signals {A : Type} (m : outcome A) : bool :=
  match m with
  | Throws _ => true
  | _ => false
  end.

Definition defined {A : Type} (m : outcome A) : bool :=
  match m with
  | Returns _ => true
  | _ => false
  end.

(** [p->f()] through a raw pointer: a null pointer has no behaviour. *)
Definition deref {P A : Type} (p : option P) (f : P -> A) : outcome A :=
  match p with
  | Some x => Returns (f x)
  | None => Undefined
  end.

(** [v[n]] on a [std::vector]: unchecked, so undefined past the end. *)
Definition at_index {A : Type} (v : list A) (n : nat) : outcome A :=
  match nth_error v n with
  | Some x => Returns x
  | None => Undefined
  end.

(** ** Small string helpers *)

Definition is_empty (s : string) : bool :=
  match s with
  | EmptyString => true
  | String _ _ => false
  end.

Fixpoint last_char (s : string) : option ascii :=
  match s with
  | EmptyString => None
  | String c EmptyString => Some c
  | String _ rest => last_char rest
  end.

Definition first_char (s : string) : option ascii :=
  match s with
  | EmptyString => None
  | String c _ => Some c
  end.

Definition char_is (c : ascii) (o : option ascii) : bool :=
  match o with
  | Some d => Ascii.eqb c d
  | None => false
  end.

(** [split_char sep s]: the pieces of [s] between occurrences of [sep]
    (always at least one piece). *)
Fixpoint split_char (sep : ascii) (s : string) : list string :=
  match s with
  | EmptyString => [EmptyString]
  | String c rest =>
      if Ascii.eqb c sep then EmptyString :: split_char sep rest
      else match split_char sep rest with
           | piece :: pieces => String c piece :: pieces
           | [] => [String c EmptyString]
           end
  end.

(** [break_char sep s]: the text before the first [sep] and, when there is
    one, the text after it. *)
Fixpoint break_char (sep : ascii) (s : string) : string * option string :=
  match s with
  | EmptyString => (EmptyString, None)
  | String c rest =>
      if Ascii.eqb c sep then (EmptyString, Some rest)
      else let (before, after) := break_char sep rest in
           (String c before, after)
  end.

Definition or_empty (o : option string) : string :=
  match o with
  | Some s => s
  | None => EmptyString
  end.

(** ** The URL engine *)

(** Modelled from the spec: the class [GURL] of google-url, which iri.h only
    includes.  Section 6 of the specification gives the contract of the
    engine: parsing a text yields scheme, user information, host, port,
    path, query and fragment, and each of them can be read back. *)
Record GURL : Type := mkGURL {
  gurl_scheme : string;
  gurl_username : string;
  gurl_password : string;
  gurl_host : string;
  gurl_port : string;
  gurl_path : string;
  gurl_query : string;
  gurl_ref : string
}.

(** Modelled from the spec: a URL object without any component, the state
    of an engine that has parsed nothing. *)
Definition GURL_empty : GURL :=
  mkGURL "" "" "" "" "" "" "" "".

Definition PORT_UNSPECIFIED : Z := (-1)%Z.

Definition digit_value (c : ascii) : option Z :=
  let n := nat_of_ascii c in
  if (48 <=? n)%nat && (n <=? 57)%nat then Some (Z.of_nat (n - 48)) else None.

Fixpoint decimal_from (acc : Z) (s : string) : option Z :=
  match s with
  | EmptyString => Some acc
  | String c rest =>
      match digit_value c with
      | Some d => decimal_from (10 * acc + d)%Z rest
      | None => None
      end
  end.

Module gurl.

(** Modelled from the spec: the readers of the URL engine (section 6:
    scheme, host, port, path, query, fragment and the has-host flag). *)
Definition scheme (u : GURL) : string := gurl_scheme u.
Definition host (u : GURL) : string := gurl_host u.
Definition has_host (u : GURL) : bool := negb (is_empty (gurl_host u)).
Definition path (u : GURL) : string := gurl_path u.
Definition query (u : GURL) : string := gurl_query u.
Definition ref (u : GURL) : string := gurl_ref u.

(** Modelled from the spec: the port as a number, the engine's
    "unspecified" value when the URL carries none.  Default ports of
    well-known schemes belong to the engine and are left out. *)
Definition EffectiveIntPort (u : GURL) : Z :=
  if is_empty (gurl_port u) then PORT_UNSPECIFIED
  else match decimal_from 0 (gurl_port u) with
       | Some n => n
       | None => PORT_UNSPECIFIED
       end.

(** Modelled from the spec: section 4.2, [ExtractFileName] "returns the
    last path segment (text after the final separator, or the whole path
    if no separator)". *)
Definition ExtractFileName (u : GURL) : string :=
  last (split_char "/" (gurl_path u)) EmptyString.

End gurl.

(** ** The class [IRI] *)

(** The three data members, iri.h lines 302-304.  [_url] is a raw owning
    pointer; [None] is [nullptr]. *)
Record IRI : Type := mkIRI {
  _urnComponents : list string;
  _url : option GURL;
  _pureIRI : string
}.

(** The static strings are declared in iri.h and defined elsewhere; the
    documentation of the constructors fixes their values: "Follows the form
    'urn:nameID:namespacedString'" and "a path separator character (/)". *)
Definition gURNScheme : string := "urn".
Definition gPathSeparator : string := "/".

(** [IRI()], line 65. *)
Definition IRI_default : IRI := mkIRI [] None "".

(** [IRI(const IRI& o)], line 102: [new GURL( *o._url )] reads through the
    source's pointer before anything else can check it. *)
Definition IRI_copy (o : IRI) : outcome IRI :=
  bind (deref (_url o) (fun u => u))
       (fun u => Returns (mkIRI (_urnComponents o) (Some u) (_pureIRI o))).

(** A moved-from [std::vector] is empty; the moved-from string is taken to
    be empty as well, as every mainstream standard library leaves it. *)
Definition moved_from_vector : list string := [].
Definition moved_from_string : string := "".

(** [IRI(IRI&& o)], line 106.  The result is the new object together with
    what is left of [o]: its members are moved out and the body sets
    [o._url = nullptr]. *)
Definition IRI_move (o : IRI) : IRI * IRI :=
  (mkIRI (_urnComponents o) (_url o) (_pureIRI o),
   mkIRI moved_from_vector None moved_from_string).

(** [IsURN], line 153. *)
Definition IsURN (i : IRI) : bool :=
  (1 <? List.length (_urnComponents i))%nat.

(** [IsRelative], line 157. *)
Definition IsRelative (i : IRI) : outcome bool :=
  deref (_url i) (fun u => negb (gurl.has_host u)).

(** [Scheme], line 164. *)
Definition Scheme (i : IRI) : outcome string :=
  if IsURN i then at_index (_urnComponents i) 0
  else deref (_url i) gurl.scheme.

(** [NameID], line 168. *)
Definition NameID (i : IRI) : outcome string :=
  if negb (IsURN i) then Throws (invalid_argument "Not a URN")
  else at_index (_urnComponents i) 1.

(** [Host], line 172. *)
Definition Host (i : IRI) : outcome string :=
  deref (_url i) gurl.host.

(** [NamespacedString], line 180. *)
Definition NamespacedString (i : IRI) : outcome string :=
  if negb (IsURN i) then Throws (invalid_argument "Not a URN")
  else at_index (_urnComponents i) 2.

(** [Port], line 184. *)
Definition Port (i : IRI) : outcome Z :=
  deref (_url i) gurl.EffectiveIntPort.

(** [Query], line 195. *)
Definition Query (i : IRI) : outcome string :=
  deref (_url i) gurl.query.

(** [Fragment], line 199. *)
Definition Fragment (i : IRI) : outcome string :=
  deref (_url i) gurl.ref.

(** [LastPathComponent], line 203. *)
Definition LastPathComponent (i : IRI) : outcome string :=
  deref (_url i) gurl.ExtractFileName.

(** ** Member functions that iri.h only declares

    Their bodies are not part of iri.h.  Each is modelled from the
    specification and from the documentation comment that iri.h attaches to
    the declaration. *)

Definition scheme_char (c : ascii) : bool :=
  let n := nat_of_ascii c in
  ((48 <=? n) && (n <=? 57) || (65 <=? n) && (n <=? 90)
   || (97 <=? n) && (n <=? 122)
   || Ascii.eqb c "+" || Ascii.eqb c "-" || Ascii.eqb c ".")%nat.

Fixpoint all_chars (p : ascii -> bool) (s : string) : bool :=
  match s with
  | EmptyString => true
  | String c rest => p c && all_chars p rest
  end.

(** The text before ["://"] when it is a scheme, and the text after. *)
Definition split_scheme (s : string) : option (string * string) :=
  match break_char ":" s with
  | (sch, Some (String "/" (String "/" rest))) =>
      if negb (is_empty sch) && all_chars scheme_char sch
      then Some (sch, rest) else None
  | _ => None
  end.

(** Modelled from the spec: [Parse] of the URL engine, on the grammar of
    section 6, "scheme://[user[:pass]@]host[:port][/path][?query][#fragment],
    or a scheme-less relative reference". *)
Definition Parse (text : string) : GURL :=
  let (before_ref, ref) := break_char "#" text in
  let (before_query, query) := break_char "?" before_ref in
  match split_scheme before_query with
  | Some (sch, rest) =>
      let (authority, tail) := break_char "/" rest in
      let path := match tail with
                  | Some p => gPathSeparator ++ p
                  | None => EmptyString
                  end in
      let (userinfo, hostport) :=
        match break_char "@" authority with
        | (before, Some after) => (before, after)
        | (before, None) => (EmptyString, before)
        end in
      let (user, pass) := break_char ":" userinfo in
      let (host, port) := break_char ":" hostport in
      mkGURL sch user (or_empty pass) host (or_empty port) path
             (or_empty query) (or_empty ref)
  | None =>
      mkGURL "" "" "" "" "" before_query (or_empty query) (or_empty ref)
  end.

(** The two names of a text of the form [urn:<id>:<name>]. *)
Definition urn_parts (s : string) : option (string * string) :=
  match split_char ":" s with
  | [a; b; c] => if a =? gURNScheme then Some (b, c) else None
  | _ => None
  end.

(** Modelled from the spec: [IRI(const string& nameID, const string&
    namespacedString)], declared at line 80.  Section 4.3: "always produces
    a URN variant with components ("urn", nameID, namespacedString)".  The
    specification describes the components only.  What the URL pointer of
    the new object holds is not described; the model lets it own a URL
    object in which nothing has been set, and no property of a URN below is
    stated in terms of it.  The cache is filled lazily and starts empty. *)
Definition IRI_urn (nameID namespacedString : string) : IRI :=
  mkIRI [gURNScheme; nameID; namespacedString] (Some GURL_empty) "".

(** Modelled from the spec: [IRI(const string& iriStr)], declared at line
    71.  Section 4.3: "URN if it matches urn:<id>:<name>; else delegated URL
    parse; empty string -> invalid/empty identifier". *)
Definition IRI_string (iriStr : string) : IRI :=
  if is_empty iriStr then IRI_default
  else match urn_parts iriStr with
       | Some (nameID, namespacedString) => IRI_urn nameID namespacedString
       | None => mkIRI [] (Some (Parse iriStr)) ""
       end.

(** Modelled from the spec: the constructor from URL components, declared
    at line 98, with the rule of its documentation comment: "If the path is
    empty or does not begin with a path separator character (/), one will be
    inserted automatically." *)
Definition IRI_url (scheme host path query fragment : string) : IRI :=
  let path' := if char_is "/" (first_char path) then path
               else gPathSeparator ++ path in
  mkIRI [] (Some (mkGURL scheme "" "" host "" path' query fragment)) "".

(** Modelled from the spec: [operator=(IRI&&)], declared at line 119.
    Section 5: "move construction/assignment transfers ownership and leaves
    the source in the empty/invalid state".  The result is the assigned-to
    object and what is left of [o]. *)
Definition IRI_move_assign (this o : IRI) : IRI * IRI :=
  (mkIRI (_urnComponents o) (_url o) (_pureIRI o),
   mkIRI moved_from_vector None moved_from_string).

(** Modelled from the spec: [Path(true)], declared at line 191, "path as
    stored". *)
Definition Path (i : IRI) : outcome string :=
  deref (_url i) gurl.path.

(** *** Percent-encoding *)

Definition is_ascii_char (c : ascii) : bool :=
  (nat_of_ascii c <? 128)%nat.

Definition is_ascii : string -> bool := all_chars is_ascii_char.

Definition hex_digit (n : nat) : ascii :=
  nth n ["0"; "1"; "2"; "3"; "4"; "5"; "6"; "7";
         "8"; "9"; "A"; "B"; "C"; "D"; "E"; "F"]%char "0"%char.

Definition percent_escape (c : ascii) : string :=
  let n := nat_of_ascii c in
  String "%" (String (hex_digit (n / 16)) (String (hex_digit (n mod 16)) "")).

Fixpoint mem_char (c : ascii) (s : string) : bool :=
  match s with
  | EmptyString => false
  | String d rest => Ascii.eqb c d || mem_char c rest
  end.

(** Each character of [s] is kept or replaced by a string. *)
Fixpoint encode_with (f : ascii -> string) (s : string) : string :=
  match s with
  | EmptyString => EmptyString
  | String c rest => f c ++ encode_with f rest
  end.

(** Modelled from the spec: the static string [gReservedCharacters],
    declared at line 51.  Section 4.1: "a fixed reserved-character set
    (path/query/fragment delimiters and the percent sign itself)". *)
Definition gReservedCharacters : string := "/?#%".

(** Modelled from the spec: [URLEncodeComponent], declared at line 265.
    Section 4.1: "percent-encodes every byte of s that is in a fixed
    reserved-character set; all other bytes pass through unchanged". *)
Definition URLEncodeComponent (str : string) : string :=
  encode_with (fun c => if mem_char c gReservedCharacters
                        then percent_escape c else String c "") str.

(** Modelled from the spec: [PercentEncodeUCS], declared at line 269.
    Section 4.1: "ASCII code points (0x00-0x7F) pass through unmodified; any
    non-ASCII code point is encoded as the percent-escaped sequence of its
    UTF-8 byte representation".  The string holds UTF-8, where the bytes of
    a non-ASCII code point are exactly the bytes from 0x80 up. *)
Definition PercentEncodeUCS (str : string) : string :=
  encode_with (fun c => if is_ascii_char c
                        then String c "" else percent_escape c) str.

(** *** The URL delegate adapter *)

Definition needs_separator (path : string) : bool :=
  is_empty path || negb (char_is "/" (last_char path)).

(** Modelled from the spec: the path edit behind [AddPathComponent].
    Section 4.2: "appends component to the path; if the current path is
    empty or does not already end with the path-separator character, insert
    a separator before the new component.  The component itself is assumed
    caller-supplied raw text and is URL-encoded by the adapter if
    necessary." *)
Definition append_path_component (component path : string) : string :=
  (if needs_separator path then path ++ gPathSeparator else path)
    ++ URLEncodeComponent component.

Definition set_path (u : GURL) (p : string) : GURL :=
  mkGURL (gurl_scheme u) (gurl_username u) (gurl_password u) (gurl_host u)
         (gurl_port u) p (gurl_query u) (gurl_ref u).

(** Modelled from the spec: [AddPathComponent], declared at line 239.  It
    edits the path of the URL object and invalidates the cache (section 3:
    "any mutation invalidates it"). *)
Definition AddPathComponent (component : string) (i : IRI) : outcome IRI :=
  deref (_url i)
        (fun u => mkIRI (_urnComponents i)
                        (Some (set_path u (append_path_component component (gurl_path u))))
                        "").

(** *** Serialization and comparison *)

Section Serialization.

(** [IDNEncodeHostname], declared at line 273, hands the host name to an
    implementation of IDNA.  The algorithm lies outside iri.h and outside
    the specification, so the serialization takes it as given. *)
Variable IDNEncodeHostname : string -> string.

(** What the ASCII form does to a component other than the host: escape
    the reserved characters, then everything that is not ASCII. *)
Definition encode_component (s : string) : string :=
  PercentEncodeUCS (URLEncodeComponent s).

(** The separators of a path delimit its components and stay. *)
Definition encode_path (p : string) : string :=
  String.concat gPathSeparator (map encode_component (split_char "/" p)).

Definition introduced_by (mark s : string) : string :=
  if is_empty s then EmptyString else mark ++ encode_component s.

Definition encode_userinfo (u : GURL) : string :=
  if is_empty (gurl_username u) then EmptyString
  else encode_component (gurl_username u)
         ++ introduced_by ":" (gurl_password u) ++ "@".

Definition encode_authority (u : GURL) : string :=
  if gurl.has_host u
  then "//" ++ encode_userinfo u ++ IDNEncodeHostname (gurl_host u)
            ++ introduced_by ":" (gurl_port u)
  else EmptyString.

(** Modelled from the spec: the layout of section 6,
    "scheme://[user[:pass]@]host[:port][/path][?query][#fragment]", with
    every component but the host encoded. *)
Definition serialize_url (u : GURL) : string :=
  (if is_empty (gurl_scheme u) then EmptyString
   else encode_component (gurl_scheme u) ++ ":")
    ++ encode_authority u
    ++ encode_path (gurl_path u)
    ++ introduced_by "?" (gurl_query u)
    ++ introduced_by "#" (gurl_ref u).

(** Modelled from the spec: [URIString], declared at line 299.  Section
    4.3: "percent-encodes all reserved and all non-ASCII bytes (via
    PercentEncodeUCS) in every component except the host, which is
    IDN-encoded to ASCII".  A URN is written [urn:<id>:<name>]; the empty
    identifier has nothing to write. *)
Definition URIString (i : IRI) : string :=
  if IsURN i
  then String.concat ":" (map encode_component (_urnComponents i))
  else match _url i with
       | Some u => serialize_url u
       | None => EmptyString
       end.

(** Modelled from the spec: [operator==], [operator!=] and [operator<],
    declared at lines 131-147.  Section 4.3: "two identifiers are equal
    iff their URIString() canonical forms are byte-identical.  Ordering is
    the lexicographic order of the same canonical form". *)
Definition IRI_eq (a b : IRI) : bool :=
  (URIString a =? URIString b)%string.

Definition IRI_ne (a b : IRI) : bool :=
  negb (IRI_eq a b).

Definition IRI_lt (a b : IRI) : bool :=
  String.ltb (URIString a) (URIString b).

End Serialization.

(** ** Notions used by the statements *)

(** The lexicographic order on byte strings, stated on its own: a proper
    prefix comes first, otherwise the first differing byte decides. *)
Inductive lex_lt : string -> string -> Prop :=
| lex_lt_prefix (c : ascii) (t : string) :
    lex_lt EmptyString (String c t)
| lex_lt_here (c d : ascii) (s t : string) :
    (N_of_ascii c < N_of_ascii d)%N -> lex_lt (String c s) (String d t)
| lex_lt_later (c : ascii) (s t : string) :
    lex_lt s t -> lex_lt (String c s) (String c t).

(** The identifiers a program can hold: built by a constructor, copied,
    moved, or having had a component appended to the path of a URL (the
    mutators are for the URL variant). *)
Inductive reachable : IRI -> Prop :=
| reach_default : reachable IRI_default
| reach_string (iriStr : string) : reachable (IRI_string iriStr)
| reach_urn (nameID namespacedString : string) :
    reachable (IRI_urn nameID namespacedString)
| reach_url (scheme host path query fragment : string) :
    reachable (IRI_url scheme host path query fragment)
| reach_copy (o i : IRI) :
    reachable o -> IRI_copy o = Returns i -> reachable i
| reach_move (o : IRI) :
    reachable o -> reachable (fst (IRI_move o))
| reach_moved_from (o : IRI) :
    reachable o -> reachable (snd (IRI_move o))
| reach_move_assign (this o : IRI) :
    reachable this -> reachable o -> reachable (fst (IRI_move_assign this o))
| reach_move_assigned_from (this o : IRI) :
    reachable this -> reachable o -> reachable (snd (IRI_move_assign this o))
| reach_add_path (component : string) (o i : IRI) :
    reachable o -> IsURN o = false ->
    AddPathComponent component o = Returns i -> reachable i.

(** The shape every reachable identifier has: no URN component at all, or
    the three of a URN. *)
Definition urn_shaped (i : IRI) : Prop :=
  exists nameID namespacedString,
    _urnComponents i = [gURNScheme; nameID; namespacedString].

Definition well_formed (i : IRI) : Prop :=
  _urnComponents i = [] \/ urn_shaped i.

(** A member function dispatches on [IsURN] when that test makes a
    difference to it: two objects with the same URL pointer, one a URN and
    one not, on which it does not do the same. *)
Definition dispatches_on_IsURN {A : Type} (f : IRI -> outcome A) : Prop :=
  exists a b : IRI,
    _url a = _url b /\ IsURN a = true /\ IsURN b = false /\ f a <> f b.

(** A member function that looks at the URL pointer alone. *)
Definition reads_url_only {A : Type} (f : IRI -> outcome A) : Prop :=
  forall a b : IRI, _url a = _url b -> f a = f b.

(** "Every accessor dispatches on this single condition", for the accessors
    whose bodies iri.h gives. *)
Definition every_accessor_dispatches : Prop :=
  dispatches_on_IsURN Scheme /\ dispatches_on_IsURN NameID
  /\ dispatches_on_IsURN NamespacedString /\ dispatches_on_IsURN IsRelative
  /\ dispatches_on_IsURN Host /\ dispatches_on_IsURN Port
  /\ dispatches_on_IsURN Query /\ dispatches_on_IsURN Fragment
  /\ dispatches_on_IsURN LastPathComponent.

(** Sample identifiers for the examples. *)
Definition sample_urn : IRI := IRI_urn "isbn" "0451450523".
Definition sample_url : IRI := IRI_url "http" "example.com" "/a" "" "".
Definition sample_url_b : IRI := IRI_url "http" "example.com" "/b" "" "".

(** A concrete host encoder for examples: an ASCII host is returned
    unchanged (section 4.1); any other host yields the empty string. *)
Definition ascii_hosts_only (host : string) : string :=
  if is_ascii host then host else EmptyString.

(** More sample identifiers: two URN components only, a URN next to a null
    URL pointer, and a URN next to the URL object of a web address. *)
Definition sample_two_components : IRI :=
  mkIRI [gURNScheme; "isbn"] (Some GURL_empty) "".
Definition sample_urn_without_url : IRI :=
  mkIRI [gURNScheme; "isbn"; "0451450523"] None "".

(** * Properties *)

(** ** Basic facts *)

Lemma deref_never_signals {P A : Type} (p : option P) (f : P -> A) :
  signals (deref p f) = false.
Proof. destruct p; reflexivity. Qed.

Lemma at_index_never_signals {A : Type} (v : list A) (n : nat) :
  signals (at_index v n) = false.
Proof. unfold at_index. destruct (nth_error v n); reflexivity. Qed.

Lemma IsURN_length (i : IRI) :
  IsURN i = true <-> 1 < List.length (_urnComponents i).
Proof. unfold IsURN. apply Nat.ltb_lt. Qed.

Lemma IsURN_false_length (i : IRI) :
  IsURN i = false <-> List.length (_urnComponents i) <= 1.
Proof. unfold IsURN. apply Nat.ltb_ge. Qed.

Lemma IRI_eta (i : IRI) :
  mkIRI (_urnComponents i) (_url i) (_pureIRI i) = i.
Proof. destruct i; reflexivity. Qed.

Lemma moved_from_is_default :
  mkIRI moved_from_vector None moved_from_string = IRI_default.
Proof. reflexivity. Qed.

Ltac quiet := rewrite ?deref_never_signals, ?at_index_never_signals.

(** ** The URN constructor *)

Lemma IRI_urn_accessors (n s : string) :
  IsURN (IRI_urn n s) = true
  /\ NameID (IRI_urn n s) = Returns n
  /\ NamespacedString (IRI_urn n s) = Returns s
  /\ Scheme (IRI_urn n s) = Returns "urn".
Proof. repeat split. Qed.

(** C1.  For all non-empty strings [n] and [s], the identifier constructed
    from the URN pair [(n, s)] is a URN whose name identifier is [n], whose
    namespaced string is [s] and whose scheme is ["urn"]. *)
Theorem urn_round_trip (n s : string)
  (Hn : is_empty n = false) (Hs : is_empty s = false) :
  IsURN (IRI_urn n s) = true
  /\ NameID (IRI_urn n s) = Returns n
  /\ NamespacedString (IRI_urn n s) = Returns s
  /\ Scheme (IRI_urn n s) = Returns "urn".
Proof. apply IRI_urn_accessors. Qed.

Lemma urn_round_trip_witness :
  is_empty "isbn" = false /\ is_empty "0451450523" = false
  /\ IsURN (IRI_urn "isbn" "0451450523") = true
  /\ NameID (IRI_urn "isbn" "0451450523") = Returns "isbn"
  /\ NamespacedString (IRI_urn "isbn" "0451450523") = Returns "0451450523"
  /\ Scheme (IRI_urn "isbn" "0451450523") = Returns "urn".
Proof.
  split; [reflexivity | split; [reflexivity | ]].
  apply (@urn_round_trip "isbn" "0451450523"); reflexivity.
Defined.

(** The scenario of the specification, through the constructor from a
    single string. *)
Example urn_from_text :
  IsURN (IRI_string "urn:isbn:0451450523") = true
  /\ NameID (IRI_string "urn:isbn:0451450523") = Returns "isbn"
  /\ NamespacedString (IRI_string "urn:isbn:0451450523") = Returns "0451450523".
Proof. repeat split. Qed.

(** ** Signalled errors *)

(** C3.  On an identifier that is not a URN, [NameID] and
    [NamespacedString] throw instead of returning a value; and that is the
    only case in which an accessor of iri.h throws: on a URN the two do not,
    and [Scheme], [IsRelative], [Host], [Port], [Query], [Fragment] and
    [LastPathComponent] never do, whatever the variant. *)
Theorem urn_accessors_signal_on_mismatch (i : IRI) (Hurl : IsURN i = false) :
  (NameID i = Throws (invalid_argument "Not a URN")
   /\ NamespacedString i = Throws (invalid_argument "Not a URN"))
  /\ (forall j : IRI,
        (signals (NameID j) = true <-> IsURN j = false)
        /\ (signals (NamespacedString j) = true <-> IsURN j = false)
        /\ signals (Scheme j) = false
        /\ signals (IsRelative j) = false
        /\ signals (Host j) = false
        /\ signals (Port j) = false
        /\ signals (Query j) = false
        /\ signals (Fragment j) = false
        /\ signals (LastPathComponent j) = false).
Proof.
  split.
  - unfold NameID, NamespacedString. rewrite Hurl. split; reflexivity.
  - intro j. unfold NameID, NamespacedString, Scheme, IsRelative, Host, Port,
      Query, Fragment, LastPathComponent.
    destruct (IsURN j); simpl; quiet;
      repeat split; intros; try reflexivity; try discriminate.
Qed.

Lemma urn_accessors_signal_on_mismatch_witness :
  IsURN sample_url = false
  /\ NameID sample_url = Throws (invalid_argument "Not a URN")
  /\ NamespacedString sample_url = Throws (invalid_argument "Not a URN")
  /\ signals (Host sample_url) = false.
Proof.
  split; [reflexivity | ].
  pose proof (@urn_accessors_signal_on_mismatch sample_url eq_refl) as H.
  destruct H as [[H1 H2] H3].
  split; [exact H1 | split; [exact H2 | ]].
  apply (H3 sample_url).
Defined.

(** ** Moving *)

(** C8.  After move construction and after move assignment the moved-from
    identifier is empty: it is not a URN and owns no URL object; the
    destination holds what the source held. *)
Theorem move_leaves_source_empty (this o : IRI) :
  (fst (IRI_move o) = o
   /\ IsURN (snd (IRI_move o)) = false
   /\ _url (snd (IRI_move o)) = None
   /\ _urnComponents (snd (IRI_move o)) = [])
  /\ (fst (IRI_move_assign this o) = o
      /\ IsURN (snd (IRI_move_assign this o)) = false
      /\ _url (snd (IRI_move_assign this o)) = None
      /\ _urnComponents (snd (IRI_move_assign this o)) = []).
Proof.
  unfold IRI_move, IRI_move_assign; simpl.
  rewrite IRI_eta. repeat split.
Qed.

(** ** Copying *)

Lemma IRI_copy_undefined_iff (o : IRI) :
  IRI_copy o = Undefined <-> _url o = None.
Proof.
  unfold IRI_copy. destruct (_url o); simpl; split; intro H;
    try reflexivity; discriminate.
Qed.

Lemma IRI_copy_defined (o : IRI) (u : GURL) :
  _url o = Some u -> IRI_copy o = Returns o.
Proof.
  intro H. unfold IRI_copy. rewrite H. simpl.
  rewrite <- H. now rewrite IRI_eta.
Qed.

(** C10.  The copy constructor reads through the source's URL pointer
    without a guard: whenever that pointer is null, whatever else the source
    holds, copying has no defined behaviour.  The default-constructed
    identifier and every moved-from identifier are such sources. *)
Theorem copy_of_null_url_undefined (o : IRI) (Hnull : _url o = None) :
  IRI_copy o = Undefined
  /\ defined (IRI_copy o) = false
  /\ IRI_copy IRI_default = Undefined
  /\ (forall p : IRI, IRI_copy (snd (IRI_move p)) = Undefined)
  /\ (forall p : IRI, IRI_copy p = Undefined <-> _url p = None).
Proof.
  assert (H : IRI_copy o = Undefined) by now apply IRI_copy_undefined_iff.
  rewrite H. repeat split; try reflexivity;
    apply IRI_copy_undefined_iff; assumption.
Qed.

Lemma copy_of_null_url_undefined_witness :
  _url IRI_default = None /\ IRI_copy IRI_default = Undefined.
Proof.
  split; [reflexivity | ].
  exact (proj1 (@copy_of_null_url_undefined IRI_default eq_refl)).
Defined.

(** ** The shape of reachable identifiers *)

Lemma urn_shaped_IsURN (i : IRI) : urn_shaped i -> IsURN i = true.
Proof.
  intros (n & s & Hc). unfold IsURN. now rewrite Hc.
Qed.

Lemma well_formed_not_urn (i : IRI) :
  well_formed i -> IsURN i = false -> _urnComponents i = [].
Proof.
  intros [Hnil | Hurn] Hfalse; [assumption | ].
  apply urn_shaped_IsURN in Hurn. congruence.
Qed.

Lemma well_formed_same_members (i j : IRI) :
  _urnComponents j = _urnComponents i ->
  well_formed i -> well_formed j.
Proof.
  intros Hc [Hnil | (n & s & Hi)].
  - left. congruence.
  - right. exists n, s. congruence.
Qed.

Lemma IRI_string_well_formed (iriStr : string) : well_formed (IRI_string iriStr).
Proof.
  unfold IRI_string.
  destruct (is_empty iriStr); [now left | ].
  destruct (urn_parts iriStr) as [[n s] | ].
  - right. now exists n, s.
  - now left.
Qed.

Lemma reachable_well_formed (i : IRI) : reachable i -> well_formed i.
Proof.
  induction 1 as [ | iriStr | n s | sch h p q f | o i _ IH Hcopy
                   | o _ IH | o _ _ | this o _ _ _ IH | this o _ _ _ _
                   | c o i _ IH Hurl Hadd ].
  - now left.
  - apply IRI_string_well_formed.
  - right. now exists n, s.
  - now left.
  - unfold IRI_copy in Hcopy. destruct (_url o) as [u | ] eqn:Hu;
      simpl in Hcopy; [ | discriminate].
    injection Hcopy as <-. now apply well_formed_same_members with o.
  - now apply well_formed_same_members with o.
  - now left.
  - now apply well_formed_same_members with o.
  - now left.
  - unfold AddPathComponent in Hadd. destruct (_url o) as [u | ];
      simpl in Hadd; [ | discriminate].
    injection Hadd as <-. left. simpl. now apply well_formed_not_urn.
Qed.

Lemma reachable_component_count (i : IRI) :
  reachable i ->
  (IsURN i = true /\ List.length (_urnComponents i) = 3)
  \/ (IsURN i = false /\ List.length (_urnComponents i) = 0).
Proof.
  intro Hi. destruct (reachable_well_formed Hi) as [Hnil | Hurn].
  - right. unfold IsURN. now rewrite Hnil.
  - left. split; [now apply urn_shaped_IsURN | ].
    destruct Hurn as (n & s & Hc). now rewrite Hc.
Qed.

(** ** Dispatch on the variant *)

Lemma reads_url_only_no_dispatch {A : Type} (f : IRI -> outcome A) :
  reads_url_only f -> ~ dispatches_on_IsURN f.
Proof.
  intros Hf (a & b & Hu & _ & _ & Hne). apply Hne. now apply Hf.
Qed.

Lemma Host_reads_url_only : reads_url_only Host.
Proof. intros a b H. unfold Host. now rewrite H. Qed.

Lemma url_readers_read_url_only :
  reads_url_only IsRelative /\ reads_url_only Host /\ reads_url_only Port
  /\ reads_url_only Query /\ reads_url_only Fragment
  /\ reads_url_only LastPathComponent.
Proof.
  repeat split; intros a b H;
    unfold IsRelative, Host, Port, Query, Fragment, LastPathComponent;
    now rewrite H.
Qed.

Lemma urn_readers_dispatch :
  dispatches_on_IsURN Scheme /\ dispatches_on_IsURN NameID
  /\ dispatches_on_IsURN NamespacedString.
Proof.
  repeat split;
    exists (IRI_urn "isbn" "0451450523"), (mkIRI [] (Some GURL_empty) "");
    repeat split; discriminate.
Qed.

(** C2, as the specification has it, fails: [Host] does not consult the
    variant, so not every accessor dispatches on [IsURN]. *)
Lemma not_every_accessor_dispatches : ~ every_accessor_dispatches.
Proof.
  intros (_ & _ & _ & _ & HHost & _).
  exact (reads_url_only_no_dispatch Host_reads_url_only HHost).
Qed.

(** C2, amended.  A reachable identifier has exactly three URN components
    when it is a URN and none or one otherwise, never two; [IsURN] holds iff
    there is more than one component; [Scheme], [NameID] and
    [NamespacedString] dispatch on that test, while [IsRelative], [Host],
    [Port], [Query], [Fragment] and [LastPathComponent] read the URL object
    and do not consult it. *)
Theorem urn_count_and_dispatch (i : IRI) (Hi : reachable i) :
  (IsURN i = true -> List.length (_urnComponents i) = 3)
  /\ (IsURN i = false ->
      List.length (_urnComponents i) = 0 \/ List.length (_urnComponents i) = 1)
  /\ List.length (_urnComponents i) <> 2
  /\ (IsURN i = true <-> 1 < List.length (_urnComponents i))
  /\ (dispatches_on_IsURN Scheme /\ dispatches_on_IsURN NameID
      /\ dispatches_on_IsURN NamespacedString)
  /\ (reads_url_only IsRelative /\ reads_url_only Host /\ reads_url_only Port
      /\ reads_url_only Query /\ reads_url_only Fragment
      /\ reads_url_only LastPathComponent).
Proof.
  pose proof (reachable_component_count Hi) as Hcount.
  split; [ | split; [ | split; [ | split; [ | split]]]].
  - intros Ht. destruct Hcount as [[_ H3] | [Hf _]]; congruence.
  - intros Hf. destruct Hcount as [[Ht _] | [_ H0]]; [congruence | now left].
  - destruct Hcount as [[_ H] | [_ H]]; rewrite H; discriminate.
  - apply IsURN_length.
  - exact urn_readers_dispatch.
  - exact url_readers_read_url_only.
Qed.

Lemma urn_count_and_dispatch_witness :
  reachable sample_urn
  /\ List.length (_urnComponents sample_urn) = 3.
Proof.
  split; [apply reach_urn | ].
  exact (proj1 (@urn_count_and_dispatch sample_urn
                  (reach_urn "isbn" "0451450523")) eq_refl).
Defined.

(** ** URL readers on a URN *)




(** ** The scheme *)

(** C7, as the specification has it, fails: on the default-constructed
    identifier [Scheme] goes through the null URL pointer. *)
Lemma Scheme_of_default_undefined :
  Scheme IRI_default = Undefined /\ defined (Scheme IRI_default) = false.
Proof. split; reflexivity. Qed.

(** C7, amended.  [Scheme] never throws.  It returns ["urn"] on a URN, the
    scheme of the URL object on every other identifier that owns one, and
    the empty string on the identifier constructed from ["#foo"].  On an
    identifier that is not a URN and whose URL pointer is null, the
    default-constructed and the moved-from ones, it has no defined
    result. *)
Theorem Scheme_cases (i : IRI) (Hi : reachable i) :
  signals (Scheme i) = false
  /\ (IsURN i = true -> Scheme i = Returns "urn")
  /\ (forall u : GURL,
        IsURN i = false -> _url i = Some u -> Scheme i = Returns (gurl.scheme u))
  /\ Scheme (IRI_string "#foo") = Returns ""
  /\ (IsURN i = false -> _url i = None -> Scheme i = Undefined)
  /\ (forall o : IRI, Scheme (snd (IRI_move o)) = Undefined).
Proof.
  split; [ | split; [ | split; [ | split; [ | split]]]].
  - unfold Scheme. destruct (IsURN i); now quiet.
  - intro Hurn. destruct (reachable_well_formed Hi) as [Hnil | (n & s & Hc)].
    + unfold IsURN in Hurn. rewrite Hnil in Hurn. discriminate.
    + unfold Scheme. rewrite Hurn, Hc. reflexivity.
  - intros u Hurl Hu. unfold Scheme. rewrite Hurl, Hu. reflexivity.
  - reflexivity.
  - intros Hurl Hu. unfold Scheme. rewrite Hurl, Hu. reflexivity.
  - reflexivity.
Qed.

Lemma Scheme_cases_witness :
  reachable sample_url
  /\ signals (Scheme sample_url) = false
  /\ Scheme sample_url = Returns "http".
Proof.
  split; [apply reach_url | ].
  pose proof (@Scheme_cases sample_url
                (reach_url "http" "example.com" "/a" "" "")) as (H1 & _ & H3 & _).
  split; [exact H1 | ].
  exact (H3 _ eq_refl eq_refl).
Defined.

(** ** Appending a path component *)

Lemma append_assoc (a b c : string) : (a ++ b) ++ c = a ++ b ++ c.
Proof. induction a as [ | x a IH]; simpl; [reflexivity | now rewrite IH]. Qed.

Lemma length_append (a b : string) :
  String.length (a ++ b) = String.length a + String.length b.
Proof. induction a as [ | x a IH]; simpl; [reflexivity | now rewrite IH]. Qed.

Lemma needs_separator_spec (path : string) :
  needs_separator path = true
  <-> path = "" \/ last_char path <> Some "/"%char.
Proof.
  unfold needs_separator. destruct path as [ | c rest].
  - simpl. split; [now left | reflexivity].
  - change (is_empty (String c rest)) with false. rewrite orb_false_l.
    rewrite negb_true_iff. unfold char_is.
    destruct (last_char (String c rest)) as [d | ] eqn:Hlast.
    + rewrite Ascii.eqb_neq. split.
      * intro H. right. congruence.
      * intros [Hnil | Hne]; [discriminate | congruence].
    + split; [intros _; right; discriminate | reflexivity].
Qed.

(** C9.  [AddPathComponent] puts a separator before the new component
    exactly when the path is empty or does not end with one; component ["b"]
    on path ["/a"] gives ["/a/b"], and on the empty path ["/b"]. *)
Theorem AddPathComponent_separator (component path : string) :
  ((path = "" \/ last_char path <> Some "/"%char)
   <-> append_path_component component path
       = path ++ "/" ++ URLEncodeComponent component)
  /\ (~ (path = "" \/ last_char path <> Some "/"%char)
      -> append_path_component component path
         = path ++ URLEncodeComponent component)
  /\ (forall (i : IRI) (u : GURL),
        _url i = Some u -> gurl_path u = path ->
        bind (AddPathComponent component i) Path
        = Returns (append_path_component component path))
  /\ bind (AddPathComponent "b" (IRI_url "http" "example.com" "/a" "" "")) Path
     = Returns "/a/b"
  /\ bind (AddPathComponent "b" (IRI_string "http://example.com")) Path
     = Returns "/b".
Proof.
  rewrite <- needs_separator_spec.
  unfold append_path_component.
  split; [ | split; [ | split; [ | split]]].
  - destruct (needs_separator path); split; intro H.
    + apply append_assoc.
    + reflexivity.
    + discriminate.
    + apply (f_equal String.length) in H.
      rewrite !length_append in H. simpl in H. lia.
  - destruct (needs_separator path); [now intros [] | reflexivity].
  - intros i u Hu <-. unfold AddPathComponent, Path. rewrite Hu. reflexivity.
  - reflexivity.
  - reflexivity.
Qed.

Lemma AddPathComponent_separator_witness :
  last_char "/a" <> Some "/"%char
  /\ append_path_component "b" "/a" = "/a/b"
  /\ append_path_component "b" "" = "/b".
Proof.
  split; [simpl; discriminate | split].
  - apply (proj1 (proj1 (@AddPathComponent_separator "b" "/a"))).
    right. simpl. discriminate.
  - apply (proj1 (proj1 (@AddPathComponent_separator "b" ""))).
    now left.
Defined.

(** ** The order of byte strings *)

Lemma ascii_compare_refl (c : ascii) : Ascii.compare c c = Eq.
Proof. unfold Ascii.compare. apply N.compare_refl. Qed.

Lemma string_compare_refl (s : string) : String.compare s s = Eq.
Proof.
  induction s as [ | c s IH]; simpl; [reflexivity | ].
  now rewrite ascii_compare_refl.
Qed.

Lemma lex_lt_irrefl (s : string) : ~ lex_lt s s.
Proof.
  induction s as [ | c s IH]; intro H; inversion H; subst.
  - lia.
  - now apply IH.
Qed.

Lemma lex_lt_trans (s t u : string) : lex_lt s t -> lex_lt t u -> lex_lt s u.
Proof.
  intro Hst. revert u.
  induction Hst as [c t | c d s t Hcd | c s t _ IH]; intros u Htu;
    inversion Htu; subst.
  - constructor.
  - constructor.
  - apply lex_lt_here. lia.
  - now apply lex_lt_here.
  - now apply lex_lt_here.
  - apply lex_lt_later. now apply IH.
Qed.

Lemma string_compare_lt (s t : string) :
  String.compare s t = Lt <-> lex_lt s t.
Proof.
  revert t. induction s as [ | c s IH]; intros [ | d t]; simpl.
  - split; [discriminate | intro H; inversion H].
  - split; [constructor | reflexivity].
  - split; [discriminate | intro H; inversion H].
  - destruct (Ascii.compare c d) eqn:Hcd.
    + apply Ascii.compare_eq_iff in Hcd. subst d. rewrite IH. split.
      * apply lex_lt_later.
      * intro H. inversion H; subst; [lia | assumption].
    + unfold Ascii.compare in Hcd. apply N.compare_lt_iff in Hcd.
      split; [intros _; now apply lex_lt_here | reflexivity].
    + split; [discriminate | ]. intro H. exfalso.
      unfold Ascii.compare in Hcd. apply N.compare_gt_iff in Hcd.
      inversion H; subst; lia.
Qed.

Lemma string_ltb_lex (s t : string) : String.ltb s t = true <-> lex_lt s t.
Proof.
  rewrite <- string_compare_lt. unfold String.ltb.
  destruct (String.compare s t); split; intro H;
    try reflexivity; discriminate.
Qed.

Lemma string_ltb_false (s t : string) : String.ltb s t = false <-> ~ lex_lt s t.
Proof. rewrite <- string_ltb_lex. now destruct (String.ltb s t). Qed.

Lemma lex_trichotomy (s t : string) : lex_lt s t \/ s = t \/ lex_lt t s.
Proof.
  destruct (String.compare s t) eqn:Hc.
  - right. left. now apply String.compare_eq_iff.
  - left. now apply string_compare_lt.
  - right. right. apply string_compare_lt.
    rewrite String.compare_antisym, Hc. reflexivity.
Qed.

Lemma lex_incomparable_eq (s t : string) :
  ~ lex_lt s t -> ~ lex_lt t s -> s = t.
Proof. intros H1 H2. destruct (lex_trichotomy s t) as [H | [H | H]]; tauto. Qed.

(** ** Comparators *)

Section Comparators.

Variable IDNEncodeHostname : string -> string.

Local Abbreviation uri := (URIString IDNEncodeHostname).
Local Abbreviation eq := (IRI_eq IDNEncodeHostname).
Local Abbreviation ne := (IRI_ne IDNEncodeHostname).
Local Abbreviation lt := (IRI_lt IDNEncodeHostname).

Lemma IRI_lt_lex (a b : IRI) : lt a b = true <-> lex_lt (uri a) (uri b).
Proof. apply string_ltb_lex. Qed.

Lemma IRI_lt_not_lex (a b : IRI) : lt a b = false <-> ~ lex_lt (uri a) (uri b).
Proof. apply string_ltb_false. Qed.

Lemma IRI_eq_uri (a b : IRI) : eq a b = true <-> uri a = uri b.
Proof. apply String.eqb_eq. Qed.

(** C4.  [a == b] holds iff the two [URIString] forms are the same bytes;
    [a != b] is its negation; [a < b] is the lexicographic order of the
    same forms.  That order is a strict weak ordering: irreflexive,
    transitive, with transitive incomparability; and two identifiers are
    equal exactly when neither is below the other. *)
Theorem comparators_follow_URIString (a b c : IRI) :
  (eq a b = true <-> uri a = uri b)
  /\ (ne a b = true <-> eq a b = false)
  /\ (ne a b = true <-> uri a <> uri b)
  /\ (lt a b = true <-> lex_lt (uri a) (uri b))
  /\ lt a a = false
  /\ (lt a b = true -> lt b c = true -> lt a c = true)
  /\ (lt a b = false -> lt b a = false ->
      lt b c = false -> lt c b = false ->
      lt a c = false /\ lt c a = false)
  /\ (eq a b = true <-> lt a b = false /\ lt b a = false).
Proof.
  split; [apply IRI_eq_uri | ].
  split; [apply negb_true_iff | ].
  split; [unfold IRI_ne; rewrite negb_true_iff; apply String.eqb_neq | ].
  split; [apply IRI_lt_lex | ].
  split; [apply IRI_lt_not_lex, lex_lt_irrefl | ].
  split; [ | split].
  - rewrite !IRI_lt_lex. apply lex_lt_trans.
  - rewrite !IRI_lt_not_lex. intros Hab Hba Hbc Hcb.
    assert (Eab : uri a = uri b) by now apply lex_incomparable_eq.
    assert (Ebc : uri b = uri c) by now apply lex_incomparable_eq.
    rewrite Eab, Ebc. split; apply lex_lt_irrefl.
  - rewrite IRI_eq_uri, !IRI_lt_not_lex. split.
    + intros ->. split; apply lex_lt_irrefl.
    + intros [Hab Hba]. now apply lex_incomparable_eq.
Qed.

End Comparators.

Lemma comparators_follow_URIString_witness :
  IRI_lt ascii_hosts_only sample_url sample_url_b = true
  /\ IRI_lt ascii_hosts_only sample_url_b sample_urn = true
  /\ IRI_lt ascii_hosts_only sample_url sample_urn = true.
Proof.
  split; [reflexivity | split; [reflexivity | ]].
  pose proof (@comparators_follow_URIString ascii_hosts_only
                sample_url sample_url_b sample_urn)
    as (_ & _ & _ & _ & _ & Htrans & _).
  apply Htrans; reflexivity.
Defined.

(** ** The ASCII form on examples *)

(** The scenario of the specification for the ASCII form. *)
Example URIString_of_components :
  URIString ascii_hosts_only
    (IRI_url "http" "example.com" "resource" "q=1" "frag")
  = "http://example.com/resource?q=1#frag".
Proof. reflexivity. Qed.

(** A non-ASCII byte in a path leaves as the escapes of its UTF-8 bytes. *)
Example URIString_escapes_utf8 :
  URIString ascii_hosts_only
    (IRI_url "http" "example.com"
       (String (ascii_of_nat 195) (String (ascii_of_nat 165) "")) "" "")
  = "http://example.com/%C3%A5".
Proof. reflexivity. Qed.

(** * Further properties of the code of iri.h *)

(** ** URN accessors and the number of components *)

Lemma at_index_defined {A : Type} (v : list A) (n : nat) :
  defined (at_index v n) = true <-> n < List.length v.
Proof.
  unfold at_index. rewrite <- nth_error_Some.
  destruct (nth_error v n); simpl; split; intro H;
    try reflexivity; try discriminate; congruence.
Qed.

Lemma at_index_undefined {A : Type} (v : list A) (n : nat) :
  at_index v n = Undefined <-> List.length v <= n.
Proof.
  unfold at_index. rewrite <- nth_error_None.
  destruct (nth_error v n); split; intro H;
    try reflexivity; discriminate.
Qed.

(** X1.  [NameID] returns a value exactly when there are at least two URN
    components and [NamespacedString] exactly when there are at least
    three.  [NameID] always throws or returns; [NamespacedString] does
    neither exactly when there are two components: its guard, [IsURN], lets
    the call through and index 2 lies past the end of the vector. *)
Theorem urn_accessors_by_component_count (i : IRI) :
  (defined (NameID i) = true <-> 2 <= List.length (_urnComponents i))
  /\ (signals (NameID i) = true <-> List.length (_urnComponents i) <= 1)
  /\ NameID i <> Undefined
  /\ (defined (NamespacedString i) = true
      <-> 3 <= List.length (_urnComponents i))
  /\ (signals (NamespacedString i) = true
      <-> List.length (_urnComponents i) <= 1)
  /\ (NamespacedString i = Undefined
      <-> List.length (_urnComponents i) = 2).
Proof.
  unfold NameID, NamespacedString.
  destruct (IsURN i) eqn:Hurn; simpl.
  - apply IsURN_length in Hurn.
    pose proof (at_index_never_signals (_urnComponents i) 1) as Hq1.
    pose proof (at_index_never_signals (_urnComponents i) 2) as Hq2.
    rewrite !at_index_defined, !at_index_undefined, Hq1, Hq2.
    repeat split; intros; try lia; try discriminate.
  - apply IsURN_false_length in Hurn.
    repeat split; intros; try lia; try discriminate; try reflexivity.
Qed.

Lemma urn_accessors_by_component_count_witness :
  List.length (_urnComponents sample_two_components) = 2
  /\ IsURN sample_two_components = true
  /\ NameID sample_two_components = Returns "isbn"
  /\ NamespacedString sample_two_components = Undefined.
Proof.
  split; [reflexivity | split; [reflexivity | split; [reflexivity | ]]].
  pose proof (@urn_accessors_by_component_count sample_two_components)
    as (_ & _ & _ & _ & _ & Hundef).
  apply Hundef. reflexivity.
Defined.

(** X2.  On a URN, [Scheme], [NameID] and [NamespacedString] read the
    component vector only: two URNs with the same components get the same
    answers whatever their URL pointers are, null included.  [Scheme] then
    returns the first component and [NameID] the second. *)
Theorem urn_accessors_ignore_url (a b : IRI)
  (Hsame : _urnComponents a = _urnComponents b) (Hurn : IsURN a = true) :
  Scheme a = Scheme b
  /\ NameID a = NameID b
  /\ NamespacedString a = NamespacedString b
  /\ (exists first : string,
        Scheme a = Returns first /\ nth_error (_urnComponents a) 0 = Some first)
  /\ (exists second : string,
        NameID a = Returns second
        /\ nth_error (_urnComponents a) 1 = Some second).
Proof.
  assert (Hurnb : IsURN b = true) by (unfold IsURN in *; now rewrite <- Hsame).
  unfold Scheme, NameID, NamespacedString.
  rewrite Hurn, Hurnb, <- Hsame. simpl.
  apply IsURN_length in Hurn.
  split; [reflexivity | split; [reflexivity | split; [reflexivity | ]]].
  unfold at_index. split.
  - destruct (nth_error (_urnComponents a) 0) as [x | ] eqn:H0.
    + now exists x.
    + apply nth_error_None in H0. lia.
  - destruct (nth_error (_urnComponents a) 1) as [x | ] eqn:H1.
    + now exists x.
    + apply nth_error_None in H1. lia.
Qed.

Lemma urn_accessors_ignore_url_witness :
  _urnComponents sample_urn = _urnComponents sample_urn_without_url
  /\ IsURN sample_urn = true
  /\ Scheme sample_urn_without_url = Returns "urn"
  /\ NameID sample_urn_without_url = Returns "isbn".
Proof.
  split; [reflexivity | split; [reflexivity | ]].
  pose proof (@urn_accessors_ignore_url sample_urn sample_urn_without_url
                eq_refl eq_refl) as (HS & HN & _).
  split; [now rewrite <- HS | now rewrite <- HN].
Defined.

(** ** The URL pointer *)

Lemma deref_defined {P A : Type} (p : option P) (f : P -> A) :
  defined (deref p f) = true <-> p <> None.
Proof.
  destruct p; simpl; split; intro H; try reflexivity;
    try discriminate; congruence.
Qed.

Lemma IRI_copy_defined_iff (i : IRI) :
  defined (IRI_copy i) = true <-> _url i <> None.
Proof.
  unfold IRI_copy. destruct (_url i); simpl; split; intro H;
    try reflexivity; try discriminate; congruence.
Qed.

(** X3.  [IsRelative], [Host], [Port], [Query], [Fragment] and
    [LastPathComponent] return a value in exactly the same states, those in
    which the URL pointer is not null, which are also the states in which
    the identifier can be copied.  [Scheme] returns a value in those states
    and on every URN.  After a move the source is in none of them. *)
Theorem url_readers_defined_iff_copyable (i : IRI) :
  (defined (IRI_copy i) = true <-> _url i <> None)
  /\ defined (IsRelative i) = defined (IRI_copy i)
  /\ defined (Host i) = defined (IRI_copy i)
  /\ defined (Port i) = defined (IRI_copy i)
  /\ defined (Query i) = defined (IRI_copy i)
  /\ defined (Fragment i) = defined (IRI_copy i)
  /\ defined (LastPathComponent i) = defined (IRI_copy i)
  /\ defined (Scheme i) = IsURN i || defined (IRI_copy i)
  /\ (defined (Host (snd (IRI_move i))) = false
      /\ defined (IsRelative (snd (IRI_move i))) = false
      /\ defined (Scheme (snd (IRI_move i))) = false).
Proof.
  split; [apply IRI_copy_defined_iff | ].
  unfold IsRelative, Host, Port, Query, Fragment, LastPathComponent,
    Scheme, IRI_copy.
  destruct (IsURN i) eqn:Hurn.
  - apply IsURN_length in Hurn.
    assert (H0 : defined (at_index (_urnComponents i) 0) = true)
      by (apply at_index_defined; lia).
    rewrite H0. destruct (_url i); repeat split.
  - destruct (_url i); repeat split.
Qed.

(** ** Copying and moving together *)

(** X4.  A copy that succeeds has the value of its source and can be
    copied again.  Moving the copy hands that value on: the object moved
    into equals the original source and can be copied, the object moved
    from cannot. *)
Theorem copy_then_move (o i : IRI) (Hcopy : IRI_copy o = Returns i) :
  i = o
  /\ IRI_copy i = Returns i
  /\ fst (IRI_move i) = o
  /\ IRI_copy (fst (IRI_move i)) = Returns o
  /\ IRI_copy (snd (IRI_move i)) = Undefined.
Proof.
  assert (Hu : exists u, _url o = Some u).
  { unfold IRI_copy in Hcopy. destruct (_url o) as [u | ];
      [now exists u | discriminate]. }
  destruct Hu as [u Hu].
  pose proof (IRI_copy_defined o Hu) as Ho.
  assert (Hio : i = o) by congruence. subst i.
  unfold IRI_move; simpl. rewrite IRI_eta.
  repeat split; assumption.
Qed.

Lemma copy_then_move_witness :
  IRI_copy sample_url = Returns sample_url
  /\ fst (IRI_move sample_url) = sample_url
  /\ IRI_copy (snd (IRI_move sample_url)) = Undefined.
Proof.
  split; [reflexivity | ].
  pose proof (@copy_then_move sample_url sample_url eq_refl)
    as (_ & _ & Hfst & _ & Hsnd).
  split; assumption.
Defined.
